(** * Encoding stage interfaces of [model_compression/core/encoding_stage.py]

    The module declares an enumeration [StateAggregationMode] and two abstract
    base classes, [EncodingStageInterface] and
    [AdaptiveEncodingStageInterface].  Every member of the two classes is an
    abstract property or method whose body is its docstring.

    The development has three layers:
    - the Python values and exceptions the declarations talk about;
    - the declarations themselves (names, decorators, parameters with their
      defaults, documented return structure) together with the part of
      Python's semantics they rely on: argument binding, execution of a
      docstring-only body, subclass tests and the [ABCMeta] instantiation
      check;
    - the aggregation of state updates announced by [StateAggregationMode],
      over an abstract array runtime.

    Concrete stages are subclasses of the interfaces; their instantiation
    follows [ABCMeta].  The client class of [optimizer_utils_test.py],
    [DummyClientDeltaFn], is modelled over nested structures of arrays. *)

From Stdlib Require Import String List ZArith Bool Lia Permutation.
Import ListNotations.
Local Open Scope string_scope.
Set Warnings "-register-all".

(** ** Python values and exceptions *)

(** The values that occur as arguments, defaults and results.  [VObject]
    is an instance with its class name and the attributes visible on it. *)
Inductive value : Type :=
| VNone
| VBool (b : bool)
| VInt (z : Z)
| VStr (s : string)
| VTuple (vs : list value)
| VDict (kvs : list (string * value))
| VObject (cls : string) (attrs : list (string * value)).

(** The error kinds named by the specification's taxonomy. *)
Inductive contract_error : Type :=
| ConfigurationError
| ShapeTypeMismatchError
| StructureMismatchError
| MissingShapeError.

(** Exceptions: Python's own [TypeError] (wrong call arity, instantiation of
    an abstract class) and [ValueError] (enum lookup), and the contract
    errors. *)
Inductive exn : Type :=
| TypeError
| ValueError
| ContractError (k : contract_error).

Inductive result (A : Type) : Type :=
| Ok (a : A)
| Raise (e : exn).
Arguments Ok {A} a.
Arguments Raise {A} e.

Definition bind {A B} (r : result A) (k : A -> result B) : result B :=
  match r with
  | Ok a => k a
  | Raise e => Raise e
  end.

Notation "x <- r ;; k" := (bind r (fun x => k))
  (at level 61, r at next level, right associativity).

Definition is_contract_error {A} (r : result A) : bool :=
  match r with
  | Raise (ContractError _) => true
  | _ => false
  end.

Fixpoint assoc {V} (k : string) (l : list (string * V)) : option V :=
  match l with
  | [] => None
  | (k', v) :: l' => if String.eqb k k' then Some v else assoc k l'
  end.

(** ** StateAggregationMode *)

Module StateAggregationMode.

Inductive t : Type := SUM | MIN | MAX | CONCAT.

(** The class body: four assignments, in source order, and no [def]. *)
Definition assignments : list (string * Z) :=
  [("SUM", 1%Z); ("MIN", 2%Z); ("MAX", 3%Z); ("CONCAT", 4%Z)].
Definition methods : list string := [].

Definition name (m : t) : string :=
  match m with
  | SUM => "SUM" | MIN => "MIN" | MAX => "MAX" | CONCAT => "CONCAT"
  end.

Definition value (m : t) : Z :=
  match m with
  | SUM => 1 | MIN => 2 | MAX => 3 | CONCAT => 4
  end%Z.

(** [list(StateAggregationMode)]: the members in definition order. *)
Definition members : list t := [SUM; MIN; MAX; CONCAT].

(** [StateAggregationMode(v)]: lookup by value, [ValueError] otherwise. *)
Definition of_value (v : Z) : result t :=
  match find (fun m => Z.eqb (value m) v) members with
  | Some m => Ok m
  | None => Raise ValueError
  end.

(** [StateAggregationMode[n]]: lookup by name. *)
Definition of_name (n : string) : option t :=
  find (fun m => String.eqb (name m) n) members.

End StateAggregationMode.

(** ** Declarations

    A [def] statement of a class body: its name, its decorator, its
    parameters with their defaults, the result structure its docstring
    documents, and its body. *)

Inductive decorator : Type :=
| abstractproperty
| abstractmethod.

Record param : Type := Param {
  param_name : string;
  param_default : option value
}.

(** A required parameter and one with a default. *)
Definition req (n : string) : param := Param n None.
Definition opt (n : string) (d : value) : param := Param n (Some d).

(** The documented structure of a result (the docstring's summary or its
    [Returns:] section). *)
Inductive rtype : Type :=
| TKeys                                   (* keys of encoded tensors *)
| TBool                                   (* a boolean *)
| TTensor                                 (* a single Tensor *)
| TMode                                   (* a StateAggregationMode *)
| TParam                                  (* a Tensor or a python constant *)
| TDictOf (elem : rtype)                  (* a dictionary of ... *)
| TTupleOf (parts : list (string * rtype)). (* a tuple of named parts *)

Inductive expr : Type :=
| EConst (v : value)
| EName (n : string).

(** Statements of a function body.  The module's bodies consist of a
    docstring only; [SReturn] and [SRaise] are what a validating body would
    need. *)
Inductive stmt : Type :=
| SDocstring (summary : string)
| SReturn (e : expr)
| SRaise (e : exn).

Record def : Type := Def {
  def_name : string;
  def_decorator : option decorator;
  def_params : list param;
  def_returns : rtype;
  def_body : list stmt
}.

Record class_decl : Type := Class {
  class_name : string;
  class_bases : list string;
  class_metaclass : option string;
  class_members : list def
}.

Definition TTensors : rtype := TDictOf TTensor.
Definition TParams : rtype := TDictOf TParam.

(** [class EncodingStageInterface(six.with_metaclass(abc.ABCMeta))]:
    metaclass [abc.ABCMeta], no base but [object]. *)
Module EncodingStageInterface.

Definition compressible_tensors_keys : def :=
  Def "compressible_tensors_keys" (Some abstractproperty)
      [req "self"] TKeys
      [SDocstring "Keys of encoded tensors allowed to be further encoded."].

Definition commutes_with_sum : def :=
  Def "commutes_with_sum" (Some abstractproperty)
      [req "self"] TBool
      [SDocstring "`True/False` based on whether the encoding commutes with sum."].

Definition decode_needs_input_shape : def :=
  Def "decode_needs_input_shape" (Some abstractproperty)
      [req "self"] TBool
      [SDocstring "Whether original shape of the encoded object is needed for decoding."].

Definition get_params : def :=
  Def "get_params" (Some abstractmethod)
      [req "self"; opt "name" VNone]
      (TTupleOf [("encode_params", TParams); ("decode_params", TParams)])
      [SDocstring "Returns the parameters needed for encoding."].

Definition encode : def :=
  Def "encode" (Some abstractmethod)
      [req "self"; req "x"; req "encode_params"; opt "name" VNone]
      TTensors
      [SDocstring "Encodes a given `Tensor`."].

Definition decode : def :=
  Def "decode" (Some abstractmethod)
      [req "self"; req "encoded_tensors"; req "decode_params";
       opt "shape" VNone; opt "name" VNone]
      TTensor
      [SDocstring "Decodes the encoded representation."].

Definition decl : class_decl :=
  Class "EncodingStageInterface" ["object"] (Some "abc.ABCMeta")
        [compressible_tensors_keys; commutes_with_sum;
         decode_needs_input_shape; get_params; encode; decode].

End EncodingStageInterface.

(** [class AdaptiveEncodingStageInterface(six.with_metaclass(abc.ABCMeta))]:
    metaclass [abc.ABCMeta], no base but [object]. *)
Module AdaptiveEncodingStageInterface.

Definition compressible_tensors_keys : def :=
  Def "compressible_tensors_keys" (Some abstractproperty)
      [req "self"] TKeys
      [SDocstring "Keys of encoded tensors allowed to be further encoded."].

Definition commutes_with_sum : def :=
  Def "commutes_with_sum" (Some abstractproperty)
      [req "self"] TBool
      [SDocstring "`True/False` based on whether the encoding commutes with sum."].

Definition decode_needs_input_shape : def :=
  Def "decode_needs_input_shape" (Some abstractproperty)
      [req "self"] TBool
      [SDocstring "Whether original shape of the encoded object is needed for decoding."].

Definition state_update_aggregation_modes : def :=
  Def "state_update_aggregation_modes" (Some abstractproperty)
      [req "self"] (TDictOf TMode)
      [SDocstring "Aggregation mode of state update tensors."].

Definition initial_state : def :=
  Def "initial_state" (Some abstractmethod)
      [req "self"; opt "name" VNone] TTensors
      [SDocstring "Creates an initial state."].

Definition update_state : def :=
  Def "update_state" (Some abstractmethod)
      [req "self"; req "state"; req "state_update_tensors"; opt "name" VNone]
      TTensors
      [SDocstring "Updates the state."].

Definition get_params : def :=
  Def "get_params" (Some abstractmethod)
      [req "self"; opt "name" VNone]
      (TTupleOf [("encode_params", TParams); ("decode_params", TParams)])
      [SDocstring "Returns the parameters needed for encoding."].

Definition encode : def :=
  Def "encode" (Some abstractmethod)
      [req "self"; req "x"; req "encode_params"; opt "name" VNone]
      (TTupleOf [("encoded_tensors", TTensors);
                 ("state_update_tensors", TTensors)])
      [SDocstring "Encodes a given `Tensor`."].

Definition decode : def :=
  Def "decode" (Some abstractmethod)
      [req "self"; req "encoded_tensors"; req "decode_params";
       opt "shape" VNone; opt "name" VNone]
      TTensor
      [SDocstring "Decodes the encoded representation."].

Definition decl : class_decl :=
  Class "AdaptiveEncodingStageInterface" ["object"] (Some "abc.ABCMeta")
        [compressible_tensors_keys; commutes_with_sum;
         decode_needs_input_shape; state_update_aggregation_modes;
         initial_state; update_state; get_params; encode; decode].

End AdaptiveEncodingStageInterface.

(** The classes the module defines with [abc.ABCMeta]. *)
Definition module_classes : list class_decl :=
  [EncodingStageInterface.decl; AdaptiveEncodingStageInterface.decl].

(** ** Semantics of the declarations *)

Definition member_names (c : class_decl) : list string :=
  map def_name (class_members c).

Definition lookup_member (c : class_decl) (n : string) : option def :=
  find (fun d => String.eqb (def_name d) n) (class_members c).

Definition lookup_class (table : list class_decl) (n : string)
  : option class_decl :=
  find (fun c => String.eqb (class_name c) n) table.

(** What a caller sees of a member: decorator, parameters, documented
    result. *)
Definition signature (d : def) : option decorator * list param * rtype :=
  (def_decorator d, def_params d, def_returns d).

(** The class and its ancestors, following [class_bases] through the
    module's classes. *)
Fixpoint ancestors (fuel : nat) (table : list class_decl) (n : string)
  : list string :=
  n :: match fuel with
       | O => []
       | S fuel' =>
           match lookup_class table n with
           | Some c => flat_map (ancestors fuel' table) (class_bases c)
           | None => []
           end
       end.

(** [issubclass(c, d)]; no class of the module is registered as a virtual
    subclass. *)
Definition issubclass (table : list class_decl) (c d : string) : bool :=
  existsb (String.eqb d) (ancestors (length table) table c).

Definition is_abstract (d : def) : bool :=
  match def_decorator d with
  | Some _ => true
  | None => false
  end.

(** [cls.__abstractmethods__] as [ABCMeta] computes it for a class without
    abstract bases. *)
Definition abstractmethods (c : class_decl) : list string :=
  map def_name (filter is_abstract (class_members c)).

(** [cls()]: [ABCMeta] refuses a class that still has abstract members. *)
Definition instantiate (c : class_decl) : result value :=
  match abstractmethods c with
  | [] => Ok (VObject (class_name c) [])
  | _ :: _ => Raise TypeError
  end.

Definition env : Type := list (string * value).

Definition remove_key (k : string) (kw : env) : env :=
  filter (fun p => negb (String.eqb (fst p) k)) kw.

(** Python's binding of positional and keyword arguments to parameters:
    positionals fill the parameters in order, the remaining parameters take
    their keyword, else their default; anything else is a [TypeError]. *)
Fixpoint bind_args (ps : list param) (args : list value) (kwargs : env)
  : result env :=
  match ps with
  | [] =>
      match args, kwargs with
      | [], [] => Ok []
      | _, _ => Raise TypeError
      end
  | p :: ps' =>
      match args with
      | a :: args' =>
          match assoc (param_name p) kwargs with
          | Some _ => Raise TypeError
          | None =>
              rest <- bind_args ps' args' kwargs ;;
              Ok ((param_name p, a) :: rest)
          end
      | [] =>
          match assoc (param_name p) kwargs with
          | Some v =>
              rest <- bind_args ps' [] (remove_key (param_name p) kwargs) ;;
              Ok ((param_name p, v) :: rest)
          | None =>
              match param_default p with
              | Some v =>
                  rest <- bind_args ps' [] kwargs ;;
                  Ok ((param_name p, v) :: rest)
              | None => Raise TypeError
              end
          end
      end
  end.

Definition eval (rho : env) (e : expr) : value :=
  match e with
  | EConst v => v
  | EName n =>
      match assoc n rho with
      | Some v => v
      | None => VNone
      end
  end.

(** Running a body: a docstring is an expression statement without effect;
    falling off the end returns [None]. *)
Fixpoint exec (rho : env) (body : list stmt) : result value :=
  match body with
  | [] => Ok VNone
  | SDocstring _ :: rest => exec rho rest
  | SReturn e :: _ => Ok (eval rho e)
  | SRaise e :: _ => Raise e
  end.

(** Running the function a [def] creates ([self] is the first argument):
    the arguments are bound, then the body runs. *)
Definition run (d : def) (args : list value) (kwargs : env)
  : result value :=
  rho <- bind_args (def_params d) args kwargs ;;
  exec rho (def_body d).

(** Calling the class attribute a [def] creates.  Under [abstractmethod]
    (or without decorator) the attribute is the function.  Under
    [abstractproperty] it is a property object, which is not callable: the
    call fails with [TypeError] whatever the arguments. *)
Definition call (d : def) (args : list value) (kwargs : env)
  : result value :=
  match def_decorator d with
  | Some abstractproperty => Raise TypeError
  | Some abstractmethod | None => run d args kwargs
  end.

(** Reading a property: its getter is run on the object. *)
Definition read_property (d : def) (self : value) : result value :=
  run d [self] [].

Definition is_docstring_only (body : list stmt) : bool :=
  match body with
  | [SDocstring _] => true
  | _ => false
  end.

(** A stage object whose class answers [True] for
    [decode_needs_input_shape]. *)
Definition stage_needing_shape : value :=
  VObject "Stage" [("decode_needs_input_shape", VBool true)].

(** ** Aggregation of state updates

    [StateAggregationMode] declares how the [state_update_tensors] of
    several participants are to be combined before [update_state]; the
    combining code is not part of the module.  The array runtime is
    abstract: an element type with its addition, minimum and maximum. *)

Section Aggregation.

Variable elt : Type.
Variables add min max : elt -> elt -> elt.

(** An array: its shape and its elements in row-major order. *)
Record array : Type := Array {
  shape : list nat;
  data : list elt
}.

Definition size (sh : list nat) : nat := fold_right Nat.mul 1 sh.

Definition well_shaped (sh : list nat) (a : array) : Prop :=
  shape a = sh /\ length (data a) = size sh.

Fixpoint zip_with (f : elt -> elt -> elt) (xs ys : list elt) : list elt :=
  match xs, ys with
  | x :: xs', y :: ys' => f x y :: zip_with f xs' ys'
  | _, _ => []
  end.

Definition elementwise (f : elt -> elt -> elt) (a b : array) : array :=
  Array (shape a) (zip_with f (data a) (data b)).

(** Concatenation along a new leading axis. *)
Definition stack (sh : list nat) (cs : list array) : array :=
  Array (length cs :: sh) (concat (map data cs)).

(** Left-to-right reduction of a non-empty list. *)
Definition reduce {A} (f : A -> A -> A) (x : A) (xs : list A) : A :=
  fold_left f xs x.

(** The scalar operation of a reducing mode; CONCAT reduces nothing. *)
Definition reducer (mode : StateAggregationMode.t)
  : option (elt -> elt -> elt) :=
  match mode with
  | StateAggregationMode.SUM => Some add
  | StateAggregationMode.MIN => Some min
  | StateAggregationMode.MAX => Some max
  | StateAggregationMode.CONCAT => None
  end.

(** Modelled from the spec: the aggregator of [state_update_tensors],
    which the module only announces through [StateAggregationMode]
    (SUM: element-wise sum across participants; MIN: element-wise
    minimum; MAX: element-wise maximum; CONCAT: concatenate along a new
    leading axis).  The contributions are taken in the order the
    participants are listed; without a participant there is nothing to
    combine. *)
Definition aggregate (mode : StateAggregationMode.t) (cs : list array)
  : option array :=
  match cs with
  | [] => None
  | c :: rest =>
      Some match reducer mode with
           | Some f => reduce (elementwise f) c rest
           | None => stack (shape c) cs
           end
  end.

(** The slice of a stacked array at position [k] of the leading axis. *)
Definition slice (sh : list nat) (k : nat) (a : array) : list elt :=
  firstn (size sh) (skipn (k * size sh) (data a)).

Definition leading_dimension (a : array) : option nat :=
  match shape a with
  | [] => None
  | n :: _ => Some n
  end.

End Aggregation.

Arguments Array {elt} shape data.
Arguments shape {elt} a.
Arguments data {elt} a.
Arguments well_shaped {elt} sh a.
Arguments elementwise {elt} f a b.
Arguments stack {elt} sh cs.
Arguments aggregate {elt} add min max mode cs.
Arguments reducer {elt} add min max mode.
Arguments slice {elt} sh k a.
Arguments leading_dimension {elt} a.
Arguments zip_with {elt} f xs ys.

(** Two participants' contributions of shape [[2]], over the integers. *)
Definition contribution_1 : array Z := Array [2] [1; 5]%Z.
Definition contribution_2 : array Z := Array [2] [3; 4]%Z.

(** ** Signatures and calls *)

Definition is_required (p : param) : bool :=
  match param_default p with
  | None => true
  | Some _ => false
  end.

(** The number of parameters without a default. *)
Definition required_count (ps : list param) : nat :=
  length (filter is_required ps).

(** Python's rule for a parameter list: no parameter without a default
    follows one with a default. *)
Fixpoint defaults_last (ps : list param) : bool :=
  match ps with
  | [] => true
  | p :: ps' =>
      if is_required p then defaults_last ps'
      else forallb (fun q => negb (is_required q)) ps'
  end.

Definition param_names (d : def) : list string :=
  map param_name (def_params d).

(** ** Direct subclasses of the interfaces

    [class name(base): body], where the single base [base] is one of the
    two interfaces; classes with several bases or with a base that is
    itself a subclass are not modelled.  A [def] of the body whose decorator
    is [None] is not declared abstract (a plain method or a [@property]). *)

(** A class body fills a dict: a later [def] of a name replaces an earlier
    one. *)
Definition namespace_lookup (body : list def) (n : string) : option def :=
  find (fun d => String.eqb (def_name d) n) (rev body).

(** [getattr(cls, n)]: the body first, then the base. *)
Definition resolve (base : class_decl) (body : list def) (n : string)
  : option def :=
  match namespace_lookup body n with
  | Some d => Some d
  | None => lookup_member base n
  end.

Definition resolves_abstract (base : class_decl) (body : list def)
           (n : string) : bool :=
  match resolve base body n with
  | Some d => is_abstract d
  | None => false
  end.

(** [ABCMeta.__new__]: the names of the body bound to an abstract member,
    and the names abstract in the base that still resolve to an abstract
    member. *)
Definition subclass_abstractmethods (base : class_decl) (body : list def)
  : list string :=
  filter (resolves_abstract base body) (map def_name body)
  ++ filter (resolves_abstract base body) (abstractmethods base).

Definition instantiate_subclass (name : string) (base : class_decl)
           (body : list def) : result value :=
  match subclass_abstractmethods base body with
  | [] => Ok (VObject name [])
  | _ :: _ => Raise TypeError
  end.

(** ** The client of [optimizer_utils_test.py]

    [DummyClientDeltaFn] negates the weights it is given.  Tensors are
    arrays over an abstract scalar type with its multiplication and the two
    literals the class uses. *)

Section DummyClientDeltaFn.

Variable scalar : Type.
Variable mul : scalar -> scalar -> scalar.
Variable minus_one : scalar.   (* the literal -1.0 *)
Variable three : scalar.       (* the literal 3.0 *)

(** A nested structure of tensors, as [nest] handles it. *)
Inductive nest : Type :=
| NTensor (t : array scalar)
| NList (xs : list nest)
| NDict (kvs : list (string * nest)).

(** [nest.map_structure(f, s)]: [f] on every tensor, the nesting and the
    keys kept. *)
Fixpoint map_structure (f : array scalar -> array scalar) (s : nest)
  : nest :=
  match s with
  | NTensor t => NTensor (f t)
  | NList xs => NList (map (map_structure f) xs)
  | NDict kvs =>
      NDict (map (fun kv => let '(k, v) := kv in (k, map_structure f v)) kvs)
  end.

(** [c * x] for a python float [c] and a tensor [x]. *)
Definition scale (c : scalar) (x : array scalar) : array scalar :=
  Array (shape x) (map (mul c) (data x)).

(** [t'] has the shape of [t] and its elements multiplied by [-1.0]. *)
Definition negated (t t' : array scalar) : Prop :=
  shape t' = shape t /\ data t' = map (mul minus_one) (data t).

(** [tf.constant(c)]: a tensor of rank 0. *)
Definition constant (c : scalar) : array scalar := Array [] [c].

(** The tuple [optimizer_utils.ClientOutput]; the first field is the one
    the class passes positionally. *)
Record ClientOutput : Type := {
  weights_delta : nest;
  weights_delta_weight : array scalar;
  model_output : nest;
  optimizer_output : nest
}.

(** [DummyClientDeltaFn.variables] *)
Definition variables : list nest := [].

(** [DummyClientDeltaFn.__call__(self, dataset, initial_weights)] *)
Definition DummyClientDeltaFn_call {D : Type} (dataset : D)
           (initial_weights : nest) : ClientOutput :=
  let weights_delta :=
    map_structure (fun x => scale minus_one x) initial_weights in
  let client_weight := constant three in
  {| weights_delta := weights_delta;
     weights_delta_weight := client_weight;
     model_output := NDict [];
     optimizer_output := NDict [("client_weight", NTensor client_weight)] |}.

(** Two structures with the same nesting and keys, whose tensors at the
    same place are related by [R]. *)
Inductive leafwise (R : array scalar -> array scalar -> Prop)
  : nest -> nest -> Prop :=
| leafwise_tensor : forall t t', R t t' -> leafwise R (NTensor t) (NTensor t')
| leafwise_list : forall xs xs',
    Forall2 (leafwise R) xs xs' -> leafwise R (NList xs) (NList xs')
| leafwise_dict : forall kvs kvs',
    Forall2 (fun kv kv' => fst kv = fst kv' /\ leafwise R (snd kv) (snd kv'))
            kvs kvs' ->
    leafwise R (NDict kvs) (NDict kvs').

(** Induction on a structure, with the hypothesis for every component. *)
Section nest_induction.

Variable P : nest -> Prop.
Hypothesis P_tensor : forall t, P (NTensor t).
Hypothesis P_list : forall xs, Forall P xs -> P (NList xs).
Hypothesis P_dict : forall kvs, Forall (fun kv => P (snd kv)) kvs ->
                                P (NDict kvs).

Fixpoint nest_induction (s : nest) : P s :=
  match s with
  | NTensor t => P_tensor t
  | NList xs =>
      P_list xs
        ((fix go (l : list nest) : Forall P l :=
            match l with
            | [] => Forall_nil P
            | x :: l' => Forall_cons x (nest_induction x) (go l')
            end) xs)
  | NDict kvs =>
      P_dict kvs
        ((fix go (l : list (string * nest))
            : Forall (fun kv => P (snd kv)) l :=
            match l with
            | [] => Forall_nil _
            | kv :: l' =>
                Forall_cons kv (nest_induction (snd kv)) (go l')
            end) kvs)
  end.

End nest_induction.

End DummyClientDeltaFn.

Arguments NTensor {scalar} t.
Arguments NList {scalar} xs.
Arguments NDict {scalar} kvs.
Arguments map_structure {scalar} f s.
Arguments scale {scalar} mul c x.
Arguments constant {scalar} c.
Arguments negated {scalar} mul minus_one t t'.
Arguments weights_delta {scalar} c.
Arguments weights_delta_weight {scalar} c.
Arguments model_output {scalar} c.
Arguments optimizer_output {scalar} c.
Arguments DummyClientDeltaFn_call {scalar} mul minus_one three {D} dataset
  initial_weights.
Arguments leafwise {scalar} R s s'.

(** The trainable weights of the linear regression model of the tests:
    [a] of shape [[2; 1]] and the scalar [b], over the integers. *)
Definition trainable_weights : nest Z :=
  NDict [("a", NTensor (Array [2; 1] [1; 0]%Z));
         ("b", NTensor (Array [] [2]%Z))].

(** A stage that implements the whole stateless interface. *)
Definition concrete_stage_body : list def :=
  map (fun d => Def (def_name d) None (def_params d) (def_returns d)
                    [SReturn (EConst VNone)])
      (class_members EncodingStageInterface.decl).

(** ** Theorems *)


Module StateAggregationModeFacts.
Import StateAggregationMode.

Lemma value_inj : forall a b, value a = value b -> a = b.
Proof. intros [] []; simpl; intro H; try reflexivity; discriminate H. Qed.

Lemma members_NoDup : NoDup members.
Proof.
  unfold members.
  repeat constructor; simpl; intuition discriminate.
Qed.

Lemma of_value_value : forall m, of_value (value m) = Ok m.
Proof. intros []; reflexivity. Qed.

Lemma of_value_range : forall v m, of_value v = Ok m -> (1 <= v <= 4)%Z.
Proof.
  intros v m H. cbv [of_value members find value] in H.
  destruct (Z.eqb_spec 1 v); [lia|].
  destruct (Z.eqb_spec 2 v); [lia|].
  destruct (Z.eqb_spec 3 v); [lia|].
  destruct (Z.eqb_spec 4 v); [lia|].
  discriminate H.
Qed.

(** C9: StateAggregationMode is a closed enumeration with exactly the four
    members SUM, MIN, MAX and CONCAT, declared by the class body's four
    assignments; the class body defines no method; every value of the type
    is one of the four members, and lookup by value reaches no other. *)
Theorem C9_closed_four_valued_enumeration :
  (forall m : t, m = SUM \/ m = MIN \/ m = MAX \/ m = CONCAT)
  /\ members = [SUM; MIN; MAX; CONCAT]
  /\ length members = 4
  /\ NoDup members
  /\ (forall m : t, In m members)
  /\ map (fun m => (name m, value m)) members = assignments
  /\ methods = []
  /\ (forall v m, of_value v = Ok m -> In m members /\ value m = v)
  /\ (forall v, (v < 1 \/ 4 < v)%Z -> of_value v = Raise ValueError).
Proof.
  split; [intros []; tauto|].
  split; [reflexivity|].
  split; [reflexivity|].
  split; [exact members_NoDup|].
  split; [intros []; simpl; tauto|].
  split; [reflexivity|].
  split; [reflexivity|].
  split.
  - intros v m H. split; [destruct m; simpl; tauto|].
    unfold of_value in H.
    destruct (find _ members) as [m'|] eqn:E; [|discriminate].
    injection H as ->.
    apply find_some in E. destruct E as [_ E].
    now apply Z.eqb_eq in E.
  - intros v Hv. destruct (of_value v) as [m|e] eqn:E.
    + apply of_value_range in E. lia.
    + unfold of_value in E. destruct (find _ members); [discriminate|].
      injection E as <-. reflexivity.
Qed.

Lemma C9_closed_four_valued_enumeration_witness :
  of_value 3 = Ok MAX /\ In MAX members /\ value MAX = 3%Z.
Proof.
  split; [reflexivity|].
  exact (proj1 (proj2 (proj2 (proj2 (proj2 (proj2 (proj2 (proj2
    C9_closed_four_valued_enumeration))))))) 3%Z MAX eq_refl).
Defined.

End StateAggregationModeFacts.

Module InterfaceFacts.

Module S := EncodingStageInterface.
Module A := AdaptiveEncodingStageInterface.

(** Argument binding fails with [TypeError] only. *)
Lemma bind_args_raises_TypeError : forall ps args kwargs e,
    bind_args ps args kwargs = Raise e -> e = TypeError.
Proof.
  induction ps as [|p ps IH]; intros args kwargs e H; simpl in H.
  - destruct args, kwargs; congruence.
  - destruct args as [|a args].
    + destruct (assoc (param_name p) kwargs).
      * destruct (bind_args ps [] (remove_key (param_name p) kwargs)) eqn:E;
          simpl in H; [discriminate|].
        injection H as <-. eauto.
      * destruct (param_default p); [|congruence].
        destruct (bind_args ps [] kwargs) eqn:E; simpl in H; [discriminate|].
        injection H as <-. eauto.
    + destruct (assoc (param_name p) kwargs); [congruence|].
      destruct (bind_args ps args kwargs) eqn:E; simpl in H; [discriminate|].
      injection H as <-. eauto.
Qed.

(** A docstring-only body returns [None] in every environment. *)
Lemma exec_docstring_only : forall rho body,
    is_docstring_only body = true -> exec rho body = Ok VNone.
Proof.
  intros rho [|[doc|e|e] [|s body]] H; simpl in *;
    try discriminate; reflexivity.
Qed.

Lemma call_docstring_only : forall d args kwargs,
    is_docstring_only (def_body d) = true ->
    call d args kwargs = Ok VNone \/ call d args kwargs = Raise TypeError.
Proof.
  intros d args kwargs H. unfold call, run.
  destruct (def_decorator d) as [[|]|]; [now right| |];
    (destruct (bind_args (def_params d) args kwargs) as [rho|e] eqn:E; simpl;
     [left; now apply exec_docstring_only
     |right; f_equal; eapply bind_args_raises_TypeError; eauto]).
Qed.

Lemma members_abstract_docstring_only : forall c d,
    In c module_classes -> In d (class_members c) ->
    is_abstract d = true /\ is_docstring_only (def_body d) = true.
Proof.
  intros c d Hc Hd.
  unfold module_classes in Hc. simpl in Hc.
  destruct Hc as [<-|[<-|[]]]; simpl in Hd;
    repeat (destruct Hd as [<-|Hd]; [split; reflexivity|]);
    destruct Hd.
Qed.

(** C8: the adaptive interface is not a subclass of the stateless one (nor
    the converse); it declares compressible_tensors_keys,
    commutes_with_sum, decode_needs_input_shape, get_params and decode
    with the signatures of the stateless interface; its encode has the
    same parameters and documents a pair whose first part is the stateless
    result and whose second part is state_update_tensors; its members are
    the stateless ones and exactly three more:
    state_update_aggregation_modes, initial_state and update_state. *)
Theorem C8_adaptive_is_superset_without_inheritance :
  issubclass module_classes (class_name A.decl) (class_name S.decl) = false
  /\ issubclass module_classes (class_name S.decl) (class_name A.decl) = false
  /\ class_bases A.decl = ["object"]
  /\ member_names S.decl
     = ["compressible_tensors_keys"; "commutes_with_sum";
        "decode_needs_input_shape"; "get_params"; "encode"; "decode"]
  /\ Forall (fun n => exists ds da,
                 lookup_member S.decl n = Some ds
                 /\ lookup_member A.decl n = Some da
                 /\ signature ds = signature da)
            ["compressible_tensors_keys"; "commutes_with_sum";
             "decode_needs_input_shape"; "get_params"; "decode"]
  /\ lookup_member S.decl "encode" = Some S.encode
  /\ lookup_member A.decl "encode" = Some A.encode
  /\ def_decorator A.encode = def_decorator S.encode
  /\ def_params A.encode = def_params S.encode
  /\ def_returns A.encode
     = TTupleOf [("encoded_tensors", def_returns S.encode);
                 ("state_update_tensors", TTensors)]
  /\ incl (member_names S.decl) (member_names A.decl)
  /\ filter (fun n => negb (existsb (String.eqb n) (member_names S.decl)))
            (member_names A.decl)
     = ["state_update_aggregation_modes"; "initial_state"; "update_state"]
  /\ NoDup (member_names A.decl)
  /\ length (member_names A.decl) = length (member_names S.decl) + 3.
Proof.
  split; [reflexivity|]. split; [reflexivity|]. split; [reflexivity|].
  split; [reflexivity|].
  split.
  { repeat constructor; eexists; eexists;
      (split; [reflexivity|split; reflexivity]). }
  split; [reflexivity|]. split; [reflexivity|]. split; [reflexivity|].
  split; [reflexivity|]. split; [reflexivity|].
  split.
  { intros n Hn. vm_compute in Hn. vm_compute. tauto. }
  split; [reflexivity|].
  split; [|reflexivity].
  vm_compute.
  repeat (constructor; [simpl; intuition discriminate|]). constructor.
Qed.

(** C10: every member of both interfaces is declared abstract with a
    docstring as its whole body; called with any arguments it returns None
    or fails Python's own argument binding with TypeError, and never
    raises an error of the taxonomy; decode declares shape with default
    None in both interfaces, so a call that omits shape returns normally
    whatever the stage object, its decode_needs_input_shape included; the
    only refusal of the core is the TypeError of instantiating the
    abstract class. *)
Theorem C10_core_validates_nothing : forall c d,
    In c module_classes -> In d (class_members c) ->
    is_abstract d = true
    /\ is_docstring_only (def_body d) = true
    /\ (forall args kwargs,
           call d args kwargs = Ok VNone
           \/ call d args kwargs = Raise TypeError)
    /\ (forall args kwargs, is_contract_error (call d args kwargs) = false)
    /\ (def_name d = "decode" ->
        In (opt "shape" VNone) (def_params d)
        /\ forall self encoded_tensors decode_params,
            call d [self; encoded_tensors; decode_params] [] = Ok VNone)
    /\ instantiate c = Raise TypeError.
Proof.
  intros c d Hc Hd.
  destruct (members_abstract_docstring_only c d Hc Hd) as [Ha Hb].
  split; [exact Ha|]. split; [exact Hb|].
  split; [intros; now apply call_docstring_only|].
  split.
  { intros args kwargs.
    destruct (call_docstring_only d args kwargs Hb) as [-> | ->];
      reflexivity. }
  split.
  - intro Hn.
    assert (d = S.decode) as ->.
    { unfold module_classes in Hc. simpl in Hc.
      destruct Hc as [<-|[<-|[]]]; simpl in Hd;
        repeat (destruct Hd as [<-|Hd];
                [first [reflexivity | discriminate Hn]|]);
        destruct Hd. }
    split; [simpl; tauto|reflexivity].
  - unfold module_classes in Hc. simpl in Hc.
    destruct Hc as [<-|[<-|[]]]; reflexivity.
Qed.

Lemma C10_core_validates_nothing_witness :
  In S.decl module_classes /\ In S.decode (class_members S.decl)
  /\ call S.decode [stage_needing_shape; VDict []; VDict []] [] = Ok VNone.
Proof.
  split; [simpl; tauto|]. split; [simpl; tauto|].
  refine (proj2 (proj1 (proj2 (proj2 (proj2 (proj2
    (C10_core_validates_nothing S.decl S.decode _ _))))) eq_refl) _ _ _);
    simpl; tauto.
Defined.

End InterfaceFacts.

Section AggregationFacts.

Variable elt : Type.
Variables add min max : elt -> elt -> elt.

Import StateAggregationMode.

Lemma zip_with_length : forall f (xs ys : list elt) n,
    length xs = n -> length ys = n -> length (zip_with f xs ys) = n.
Proof.
  intros f xs. induction xs as [|x xs IH]; intros [|y ys] n Hx Hy;
    simpl in *; try congruence.
  destruct n as [|n]; [discriminate|].
  f_equal. apply IH; congruence.
Qed.

Lemma nth_zip_with : forall f (xs ys : list elt) i d,
    i < length xs -> i < length ys ->
    nth i (zip_with f xs ys) d = f (nth i xs d) (nth i ys d).
Proof.
  intros f xs. induction xs as [|x xs IH]; intros [|y ys] i d Hx Hy;
    simpl in *; try lia.
  destruct i as [|i]; [reflexivity|].
  apply IH; lia.
Qed.

(** Reducing arrays of one shape element-wise keeps the shape, and each
    element of the result is the reduction of the elements at its
    position. *)
Lemma reduce_elementwise : forall f sh (rest : list (array elt)) c,
    well_shaped sh c -> Forall (well_shaped sh) rest ->
    well_shaped sh (reduce (elementwise f) c rest)
    /\ forall i d, i < size sh ->
         nth i (data (reduce (elementwise f) c rest)) d
         = reduce f (nth i (data c) d)
                  (map (fun a => nth i (data a) d) rest).
Proof.
  intros f sh rest. unfold reduce.
  induction rest as [|a rest IH]; intros c Hc Hrest; simpl.
  - split; [exact Hc|reflexivity].
  - inversion Hrest as [|a' rest' Ha Hrest']; subst.
    destruct Hc as [Hcs Hcl], Ha as [Has Hal].
    assert (Hw : well_shaped sh (elementwise f c a)).
    { split; [exact Hcs|]. simpl. now apply zip_with_length. }
    destruct (IH _ Hw Hrest') as [IHw IHn].
    split; [exact IHw|].
    intros i d Hi. rewrite IHn by exact Hi. simpl.
    rewrite nth_zip_with by lia. reflexivity.
Qed.

Lemma firstn_length_app : forall (l l' : list elt),
    firstn (length l) (l ++ l') = l.
Proof. induction l as [|x l IH]; intro l'; simpl; [now destruct l'|]. now rewrite IH. Qed.

Lemma skipn_length_app : forall (l l' : list elt) m,
    skipn (length l + m) (l ++ l') = skipn m l'.
Proof. induction l as [|x l IH]; intros l' m; simpl; [reflexivity|apply IH]. Qed.

Lemma stack_data_length : forall sh (cs : list (array elt)),
    Forall (well_shaped sh) cs ->
    length (concat (map data cs)) = length cs * size sh.
Proof.
  intros sh cs H. induction H as [|c cs [_ Hl] _ IH]; simpl; [reflexivity|].
  rewrite length_app, IH, Hl. reflexivity.
Qed.

(** The [k]-th slice of a stack is the [k]-th array stacked. *)
Lemma stack_slice : forall sh (cs : list (array elt)) k dflt,
    Forall (well_shaped sh) cs -> k < length cs ->
    firstn (size sh) (skipn (k * size sh) (concat (map data cs)))
    = data (nth k cs dflt).
Proof.
  intros sh cs k dflt H. revert k.
  induction H as [|c cs [_ Hl] Hcs IH]; intros k Hk; simpl in Hk; [lia|].
  destruct k as [|k].
  - simpl. rewrite <- Hl. apply firstn_length_app.
  - replace (skipn (S k * size sh) (concat (map data (c :: cs))))
      with (skipn (k * size sh) (concat (map data cs))).
    + apply IH. lia.
    + simpl. rewrite <- Hl. symmetry. apply skipn_length_app.
Qed.

(** C7: for N >= 1 participants contributing arrays of one shape, SUM, MIN
    and MAX yield an array of that shape whose every element is the sum,
    minimum or maximum of the N contributions at that position; CONCAT
    yields an array with a new leading axis of dimension N whose k-th
    slice is the k-th contribution, in the order the participants are
    listed: another order of the same participants keeps the shape. *)
Theorem C7_aggregation_modes :
  forall (sh : list nat) (c : array elt) (rest : list (array elt)),
    Forall (well_shaped sh) (c :: rest) ->
    (reducer add min max SUM = Some add
     /\ reducer add min max MIN = Some min
     /\ reducer add min max MAX = Some max)
    /\ (forall mode f,
        reducer add min max mode = Some f ->
        exists t,
          aggregate add min max mode (c :: rest) = Some t
          /\ well_shaped sh t
          /\ forall i d, i < size sh ->
               nth i (data t) d
               = reduce f (nth i (data c) d)
                        (map (fun a => nth i (data a) d) rest))
    /\ (exists t,
           aggregate add min max CONCAT (c :: rest) = Some t
           /\ shape t = length (c :: rest) :: sh
           /\ leading_dimension t = Some (length (c :: rest))
           /\ length (data t) = length (c :: rest) * size sh
           /\ forall k, k < length (c :: rest) ->
                slice sh k t = data (nth k (c :: rest) c))
    /\ (forall cs', Permutation (c :: rest) cs' ->
           exists t',
             aggregate add min max CONCAT cs' = Some t'
             /\ shape t' = length (c :: rest) :: sh).
Proof.
  intros sh c rest H.
  pose proof H as H0.
  inversion H as [|c' rest' Hc Hrest]; subst.
  split; [repeat split|].
  split; [|split].
  - intros mode f Hm.
    destruct (reduce_elementwise f sh rest c Hc Hrest) as [Hw Hn].
    exists (reduce (elementwise f) c rest).
    split; [|split; assumption].
    simpl. now rewrite Hm.
  - exists (stack (shape c) (c :: rest)).
    destruct Hc as [Hs Hl].
    split; [reflexivity|].
    split; [simpl; now rewrite Hs|].
    split; [reflexivity|].
    split; [unfold stack, data at 1; now apply stack_data_length|].
    intros k Hk. unfold slice, stack, data at 1.
    now apply stack_slice.
  - intros cs' HP.
    destruct cs' as [|c1 rest1].
    { apply Permutation_length in HP. discriminate HP. }
    exists (stack (shape c1) (c1 :: rest1)).
    split; [reflexivity|].
    assert (Hin : In c1 (c :: rest)).
    { eapply Permutation_in; [symmetry; exact HP|now left]. }
    rewrite Forall_forall in H0. destruct (H0 _ Hin) as [Hs _].
    unfold stack, shape at 1. rewrite Hs.
    now rewrite (Permutation_length HP).
Qed.

End AggregationFacts.

Lemma C7_aggregation_modes_witness :
  Forall (well_shaped [2]) [contribution_1; contribution_2]
  /\ (exists t,
         aggregate Z.add Z.min Z.max StateAggregationMode.SUM
                   [contribution_1; contribution_2] = Some t
         /\ well_shaped [2] t
         /\ nth 1 (data t) 0%Z = 9%Z)
  /\ (exists t,
         aggregate Z.add Z.min Z.max StateAggregationMode.CONCAT
                   [contribution_1; contribution_2] = Some t
         /\ shape t = [2; 2]).
Proof.
  assert (H : Forall (well_shaped [2]) [contribution_1; contribution_2]).
  { repeat constructor. }
  split; [exact H|].
  destruct (C7_aggregation_modes Z Z.add Z.min Z.max [2]
              contribution_1 [contribution_2] H)
    as (_ & Hr & (t & Ht & Hs & _) & _).
  split.
  - destruct (Hr StateAggregationMode.SUM Z.add eq_refl)
      as (u & Hu & Hw & Hn).
    exists u. split; [exact Hu|]. split; [exact Hw|].
    rewrite (Hn 1 0%Z); [reflexivity|simpl; lia].
  - exists t. split; assumption.
Defined.

(** ** Lookup of enumeration members *)

Module EnumLookupFacts.

Import StateAggregationMode.

Lemma of_name_name : forall m, of_name (name m) = Some m.
Proof. intros []; reflexivity. Qed.

Lemma of_name_sound : forall n m, of_name n = Some m -> name m = n.
Proof.
  intros n m H. unfold of_name in H.
  apply find_some in H. destruct H as [_ H].
  now apply String.eqb_eq in H.
Qed.

(** X1: lookup of a member by its value and by its name round-trips, and no
    two members share a value or a name (the enumeration has no alias); a
    name that is looked up successfully is the name of the member found. *)
Theorem X1_enum_lookup_round_trips :
  (forall m, of_value (value m) = Ok m)
  /\ (forall m, of_name (name m) = Some m)
  /\ (forall a b, value a = value b -> a = b)
  /\ (forall a b, name a = name b -> a = b)
  /\ (forall n m, of_name n = Some m -> name m = n)
  /\ (forall n, ~ In n (map name members) -> of_name n = None).
Proof.
  split; [intros []; reflexivity|].
  split; [exact of_name_name|].
  split; [intros [] []; simpl; intro H; try reflexivity; discriminate H|].
  split.
  { intros a b H. pose proof (of_name_name a) as Ha.
    rewrite H, of_name_name in Ha. now injection Ha. }
  split; [exact of_name_sound|].
  intros n Hn. destruct (of_name n) as [m|] eqn:E; [|reflexivity].
  exfalso. apply Hn. apply of_name_sound in E. subst n.
  apply in_map. destruct m; simpl; tauto.
Qed.

Lemma X1_enum_lookup_round_trips_witness :
  of_name "CONCAT" = Some CONCAT /\ name CONCAT = "CONCAT".
Proof.
  split; [reflexivity|].
  exact (proj1 (proj2 (proj2 (proj2 (proj2 X1_enum_lookup_round_trips))))
           "CONCAT" CONCAT eq_refl).
Defined.

End EnumLookupFacts.

(** ** Calls of the declared members *)

Module SignatureFacts.

Module S := EncodingStageInterface.
Module A := AdaptiveEncodingStageInterface.

(** A property checked on the fifteen declarations holds of every member of
    the module's classes. *)
Lemma members_Forall : forall (P : def -> Prop),
    Forall P (flat_map class_members module_classes) ->
    forall c d, In c module_classes -> In d (class_members c) -> P d.
Proof.
  intros P H c d Hc Hd. rewrite Forall_forall in H. apply H.
  apply in_flat_map. exists c. split; assumption.
Qed.

Lemma members_signature_wf : forall c d,
    In c module_classes -> In d (class_members c) ->
    defaults_last (def_params d) = true
    /\ NoDup (param_names d)
    /\ is_docstring_only (def_body d) = true.
Proof.
  apply members_Forall. vm_compute.
  repeat (constructor;
          [split; [reflexivity|split; [|reflexivity]];
           repeat (constructor; [simpl; intuition discriminate|]);
           constructor|]).
  constructor.
Qed.

Lemma required_count_cons : forall p ps,
    required_count (p :: ps)
    = (if is_required p then 1 else 0) + required_count ps.
Proof.
  intros p ps. unfold required_count. simpl.
  destruct (is_required p); reflexivity.
Qed.

Lemma all_optional_count : forall ps,
    forallb (fun q => negb (is_required q)) ps = true ->
    required_count ps = 0.
Proof.
  induction ps as [|p ps IH]; intro H; [reflexivity|].
  simpl in H. apply andb_true_iff in H. destruct H as [Hp Hps].
  rewrite required_count_cons, (IH Hps).
  destruct (is_required p); [discriminate Hp|reflexivity].
Qed.

Lemma all_optional_defaults_last : forall ps,
    forallb (fun q => negb (is_required q)) ps = true ->
    defaults_last ps = true.
Proof.
  induction ps as [|p ps IH]; intro H; [reflexivity|].
  simpl in *. apply andb_true_iff in H. destruct H as [Hp Hps].
  destruct (is_required p); [discriminate Hp|exact Hps].
Qed.

(** Positional arguments bind when their number lies between the number of
    required parameters and the number of parameters. *)
Lemma bind_positional_ok : forall ps args,
    defaults_last ps = true ->
    required_count ps <= length args <= length ps ->
    exists rho, bind_args ps args [] = Ok rho
                /\ map fst rho = map param_name ps.
Proof.
  induction ps as [|p ps IH]; intros args Hd Hb.
  - destruct args; simpl in Hb; [|lia]. exists []. split; reflexivity.
  - rewrite required_count_cons in Hb. simpl in Hd, Hb.
    destruct args as [|a args]; simpl.
    + unfold is_required in *.
      destruct (param_default p) as [v|]; [|simpl in Hb; lia].
      destruct (IH [] (all_optional_defaults_last ps Hd)) as (rho & E & Hn).
      { rewrite (all_optional_count ps Hd). simpl. lia. }
      rewrite E. simpl. eexists. split; [reflexivity|]. simpl. now rewrite Hn.
    + assert (Hd' : defaults_last ps = true).
      { destruct (is_required p);
          [exact Hd|now apply all_optional_defaults_last]. }
      destruct (IH args Hd') as (rho & E & Hn).
      { simpl in Hb. destruct (is_required p) eqn:Ep; [lia|].
        rewrite (all_optional_count ps Hd). lia. }
      rewrite E. simpl. eexists. split; [reflexivity|]. simpl. now rewrite Hn.
Qed.

(** Too few or too many positional arguments are refused. *)
Lemma bind_positional_fail : forall ps args,
    length args < required_count ps \/ length ps < length args ->
    bind_args ps args [] = Raise TypeError.
Proof.
  induction ps as [|p ps IH]; intros args Hb.
  - destruct args; simpl in *; [unfold required_count in Hb; simpl in Hb; lia|].
    reflexivity.
  - rewrite required_count_cons in Hb.
    destruct args as [|a args]; simpl in *.
    + unfold is_required in *.
      destruct (param_default p) as [v|]; [|reflexivity].
      rewrite IH; [reflexivity|]. simpl. lia.
    + rewrite IH; [reflexivity|].
      destruct (is_required p); lia.
Qed.

Lemma members_decorated : forall c d,
    In c module_classes -> In d (class_members c) ->
    def_decorator d = Some abstractmethod
    \/ (def_decorator d = Some abstractproperty
        /\ def_params d = [req "self"]).
Proof.
  apply members_Forall. vm_compute.
  repeat (constructor; [first [left; reflexivity|right; split; reflexivity]|]).
  constructor.
Qed.

(** X2: a call of a member that the two interfaces declare with
    abstractmethod, with positional arguments only (self included), returns
    None exactly when the number of arguments lies between the number of
    parameters without default and the number of parameters; with fewer or
    more it fails with TypeError.  A member declared with abstractproperty
    is a property object: calling it fails with TypeError whatever the
    arguments, and reading it runs its getter on the object, which returns
    None. *)
Theorem X2_positional_call_arity : forall c d args,
    In c module_classes -> In d (class_members c) ->
    (def_decorator d = Some abstractmethod ->
     (required_count (def_params d) <= length args <= length (def_params d) ->
      call d args [] = Ok VNone)
     /\ (length args < required_count (def_params d)
         \/ length (def_params d) < length args ->
         call d args [] = Raise TypeError))
    /\ (def_decorator d = Some abstractproperty ->
        (forall kwargs, call d args kwargs = Raise TypeError)
        /\ (forall self, read_property d self = Ok VNone))
    /\ (def_decorator d = Some abstractmethod
        \/ def_decorator d = Some abstractproperty).
Proof.
  intros c d args Hc Hd.
  destruct (members_signature_wf c d Hc Hd) as (Hl & _ & Hb).
  split; [|split].
  - intro Hm. unfold call, run. rewrite Hm.
    split; intro H.
    + destruct (bind_positional_ok _ args Hl H) as (rho & E & _).
      rewrite E. simpl. now apply InterfaceFacts.exec_docstring_only.
    + now rewrite bind_positional_fail.
  - intro Hp. split.
    + intro kwargs. unfold call. now rewrite Hp.
    + intro self. unfold read_property, run.
      destruct (members_decorated c d Hc Hd) as [Hm|[_ Hps]];
        [congruence|].
      rewrite Hps. simpl. now apply InterfaceFacts.exec_docstring_only.
  - destruct (members_decorated c d Hc Hd) as [Hm|[Hp _]]; tauto.
Qed.

Lemma X2_positional_call_arity_witness :
  In A.decl module_classes /\ In A.update_state (class_members A.decl)
  /\ def_decorator A.update_state = Some abstractmethod
  /\ call A.update_state [VNone; VDict []; VDict []] [] = Ok VNone
  /\ call A.update_state [VNone; VDict []] [] = Raise TypeError
  /\ In A.commutes_with_sum (class_members A.decl)
  /\ def_decorator A.commutes_with_sum = Some abstractproperty
  /\ call A.commutes_with_sum [stage_needing_shape] [] = Raise TypeError
  /\ read_property A.commutes_with_sum stage_needing_shape = Ok VNone.
Proof.
  assert (Hc : In A.decl module_classes) by (simpl; tauto).
  assert (Hd : In A.update_state (class_members A.decl)) by (simpl; tauto).
  assert (Hp : In A.commutes_with_sum (class_members A.decl))
    by (simpl; tauto).
  split; [exact Hc|]. split; [exact Hd|]. split; [reflexivity|].
  split; [|split; [|split; [exact Hp|split; [reflexivity|split]]]].
  - apply (proj1 (proj1 (X2_positional_call_arity A.decl A.update_state
                           [VNone; VDict []; VDict []] Hc Hd) eq_refl)).
    vm_compute. split; repeat constructor.
  - apply (proj2 (proj1 (X2_positional_call_arity A.decl A.update_state
                           [VNone; VDict []] Hc Hd) eq_refl)).
    left. vm_compute. repeat constructor.
  - exact (proj1 (proj1 (proj2 (X2_positional_call_arity
             A.decl A.commutes_with_sum [stage_needing_shape] Hc Hp))
             eq_refl) []).
  - exact (proj2 (proj1 (proj2 (X2_positional_call_arity
             A.decl A.commutes_with_sum [] Hc Hp)) eq_refl)
             stage_needing_shape).
Defined.

(** A keyword that names no parameter makes the binding fail, whatever the
    other arguments are. *)
Lemma bind_unknown_keyword : forall ps args kwargs k,
    assoc k kwargs <> None -> ~ In k (map param_name ps) ->
    bind_args ps args kwargs = Raise TypeError.
Proof.
  induction ps as [|p ps IH]; intros args kwargs k Hk Hn.
  - destruct kwargs; [now elim Hk|]. destruct args; reflexivity.
  - simpl in Hn.
    assert (Hp : String.eqb k (param_name p) = false).
    { apply String.eqb_neq. intro E. apply Hn. now left. }
    assert (Hps : ~ In k (map param_name ps)) by tauto.
    destruct args as [|a args]; simpl.
    + destruct (assoc (param_name p) kwargs) eqn:E.
      * rewrite (IH [] (remove_key (param_name p) kwargs) k);
          [reflexivity| |exact Hps].
        clear - Hk Hp. induction kwargs as [|[k' v'] kw IHkw];
          [exact Hk|].
        simpl in *. destruct (String.eqb k k') eqn:Ek.
        -- apply String.eqb_eq in Ek. subst k'.
           rewrite Hp. simpl. rewrite String.eqb_refl. discriminate.
        -- destruct (negb (String.eqb k' (param_name p))); simpl;
             [rewrite Ek|]; now apply IHkw.
      * destruct (param_default p); [|reflexivity].
        now rewrite (IH [] kwargs k).
    + destruct (assoc (param_name p) kwargs); [reflexivity|].
      now rewrite (IH args kwargs k).
Qed.

(** X3: a call of any member of the two interfaces that passes a keyword
    argument whose name is not a parameter of that member fails with
    TypeError, whatever the other arguments are. *)
Theorem X3_unknown_keyword_is_refused : forall c d args kwargs k v,
    In c module_classes -> In d (class_members c) ->
    assoc k kwargs = Some v ->
    ~ In k (param_names d) ->
    call d args kwargs = Raise TypeError.
Proof.
  intros c d args kwargs k v _ _ Hk Hn. unfold call, run.
  rewrite (bind_unknown_keyword _ args kwargs k);
    [now destruct (def_decorator d) as [[|]|]| |exact Hn].
  rewrite Hk. discriminate.
Qed.

Lemma X3_unknown_keyword_is_refused_witness :
  In S.decl module_classes /\ In S.decode (class_members S.decl)
  /\ call S.decode [VNone; VDict []; VDict []] [("dtype", VStr "float32")]
     = Raise TypeError.
Proof.
  assert (Hc : In S.decl module_classes) by (simpl; tauto).
  assert (Hd : In S.decode (class_members S.decl)) by (simpl; tauto).
  split; [exact Hc|]. split; [exact Hd|].
  apply (X3_unknown_keyword_is_refused S.decl S.decode
           [VNone; VDict []; VDict []] [("dtype", VStr "float32")]
           "dtype" (VStr "float32") Hc Hd eq_refl).
  simpl. intuition discriminate.
Defined.

(** X4: update_state is the only member of the two interfaces with a
    parameter named state: every other member called with a state keyword
    fails with TypeError (get_params and encode take no state), while
    update_state accepts its two dictionaries by keyword. *)
Theorem X4_only_update_state_takes_state : forall c d args kwargs v,
    In c module_classes -> In d (class_members c) ->
    def_name d <> "update_state" ->
    assoc "state" kwargs = Some v ->
    ~ In "state" (param_names d)
    /\ call d args kwargs = Raise TypeError
    /\ In "state" (param_names A.update_state)
    /\ forall self s u,
        call A.update_state [self]
             [("state", s); ("state_update_tensors", u)] = Ok VNone.
Proof.
  intros c d args kwargs v Hc Hd Hn Hk.
  assert (H : ~ In "state" (param_names d)).
  { refine (members_Forall
              (fun d => def_name d <> "update_state" ->
                        ~ In "state" (param_names d)) _ c d Hc Hd Hn).
    vm_compute.
    repeat (constructor;
            [first [ solve [intros _ H; intuition discriminate]
                   | solve [intros H _; now elim H] ]|]).
    constructor. }
  split; [exact H|].
  split.
  - unfold call, run.
    rewrite (bind_unknown_keyword _ args kwargs "state");
      [now destruct (def_decorator d) as [[|]|]| |exact H].
    rewrite Hk. discriminate.
  - split; [simpl; tauto|reflexivity].
Qed.

Lemma X4_only_update_state_takes_state_witness :
  In A.decl module_classes /\ In A.get_params (class_members A.decl)
  /\ call A.get_params [VNone] [("state", VDict [])] = Raise TypeError.
Proof.
  assert (Hc : In A.decl module_classes) by (simpl; tauto).
  assert (Hd : In A.get_params (class_members A.decl)) by (simpl; tauto).
  split; [exact Hc|]. split; [exact Hd|].
  refine (proj1 (proj2 (X4_only_update_state_takes_state
            A.decl A.get_params [VNone] [("state", VDict [])] (VDict [])
            Hc Hd _ eq_refl))).
  discriminate.
Defined.

Lemma remove_key_absent : forall k (kw : env),
    assoc k kw = None -> remove_key k kw = kw.
Proof.
  induction kw as [|[k' v'] kw IH]; intro H; [reflexivity|].
  simpl in *. destruct (String.eqb k k') eqn:E; [discriminate|].
  rewrite String.eqb_sym, E. simpl. now rewrite IH.
Qed.

(** The parameter that follows the positional arguments may be passed by
    keyword instead. *)
Lemma bind_next_by_keyword : forall ps args kwargs p v,
    NoDup (map param_name ps) ->
    nth_error ps (length args) = Some p ->
    assoc (param_name p) kwargs = None ->
    bind_args ps (args ++ [v]) kwargs
    = bind_args ps args ((param_name p, v) :: kwargs).
Proof.
  induction ps as [|q ps IH]; intros args kwargs p v Hnd Hp Hk.
  - destruct args; discriminate Hp.
  - inversion Hnd as [|x l Hq Hnd']; subst.
    destruct args as [|a args]; simpl in Hp.
    + injection Hp as ->. simpl.
      rewrite remove_key_absent by exact Hk.
      rewrite Hk, String.eqb_refl. reflexivity.
    + simpl.
      assert (E : String.eqb (param_name q) (param_name p) = false).
      { apply String.eqb_neq. intro E. apply Hq. rewrite E.
        apply in_map. eapply nth_error_In; eauto. }
      rewrite E.
      destruct (assoc (param_name q) kwargs); [reflexivity|].
      now rewrite (IH args kwargs p v Hnd' Hp Hk).
Qed.

(** X5: in a call of any member of the two interfaces, the argument of the
    parameter that follows the positional arguments can be passed by
    keyword instead of positionally with the same result (so shape and name
    may be given either way). *)
Theorem X5_keyword_or_positional : forall c d args kwargs p v,
    In c module_classes -> In d (class_members c) ->
    nth_error (def_params d) (length args) = Some p ->
    assoc (param_name p) kwargs = None ->
    call d (args ++ [v]) kwargs
    = call d args ((param_name p, v) :: kwargs)
    /\ bind_args (def_params d) (args ++ [v]) kwargs
       = bind_args (def_params d) args ((param_name p, v) :: kwargs).
Proof.
  intros c d args kwargs p v Hc Hd Hp Hk.
  destruct (SignatureFacts.members_signature_wf c d Hc Hd) as (_ & Hnd & _).
  assert (E := bind_next_by_keyword _ args kwargs p v Hnd Hp Hk).
  split; [|exact E]. unfold call, run. now rewrite E.
Qed.

Lemma X5_keyword_or_positional_witness :
  In S.decl module_classes /\ In S.decode (class_members S.decl)
  /\ bind_args (def_params S.decode)
               [VNone; VDict []; VDict []; VTuple [VInt 2]] []
     = bind_args (def_params S.decode)
                 [VNone; VDict []; VDict []] [("shape", VTuple [VInt 2])].
Proof.
  assert (Hc : In S.decl module_classes) by (simpl; tauto).
  assert (Hd : In S.decode (class_members S.decl)) by (simpl; tauto).
  split; [exact Hc|]. split; [exact Hd|].
  exact (proj2 (X5_keyword_or_positional S.decl S.decode
                  [VNone; VDict []; VDict []] [] (opt "shape" VNone)
                  (VTuple [VInt 2]) Hc Hd eq_refl eq_refl)).
Defined.

End SignatureFacts.

(** ** Concrete stages: subclasses of the interfaces *)

Module SubclassFacts.

Module S := EncodingStageInterface.
Module A := AdaptiveEncodingStageInterface.

Lemma filter_nil_iff : forall {X} (f : X -> bool) (l : list X),
    filter f l = [] <-> forall x, In x l -> f x = false.
Proof.
  intros X f l. induction l as [|a l IH]; simpl.
  - split; [intros _ x []|reflexivity].
  - destruct (f a) eqn:E; split.
    + discriminate.
    + intro H. specialize (H a (or_introl eq_refl)). congruence.
    + intros H x [<-|Hx]; [exact E|]. now apply IH.
    + intro H. apply IH. intros x Hx. apply H. now right.
Qed.

(** A name defined in a class body is bound in its namespace. *)
Lemma namespace_lookup_defined : forall body d,
    In d body -> exists d', namespace_lookup body (def_name d) = Some d'.
Proof.
  intros body d Hd. unfold namespace_lookup.
  destruct (find _ (rev body)) as [d'|] eqn:E; [now exists d'|].
  apply in_rev in Hd. apply (find_none _ _ E d) in Hd.
  rewrite String.eqb_refl in Hd. discriminate Hd.
Qed.

(** Every member of an interface is abstract in it. *)
Lemma interface_members_abstract : forall base n,
    In base module_classes -> In n (member_names base) ->
    In n (abstractmethods base)
    /\ exists d, lookup_member base n = Some d /\ is_abstract d = true.
Proof.
  intros base n Hb Hn. unfold module_classes in Hb. simpl in Hb.
  destruct Hb as [<-|[<-|[]]]; simpl in Hn;
    repeat (destruct Hn as [<-|Hn];
            [split; [vm_compute; tauto|eexists; split; reflexivity]|]);
    destruct Hn.
Qed.

Lemma abstractmethods_are_members : forall base,
    In base module_classes -> abstractmethods base = member_names base.
Proof.
  intros base Hb. unfold module_classes in Hb. simpl in Hb.
  destruct Hb as [<-|[<-|[]]]; reflexivity.
Qed.

(** X6: a class whose single base is one of the two interfaces (a direct
    subclass, without any other base) can be instantiated exactly when its
    body binds every member name of the interface, and every name it
    defines, to a member that is not declared abstract; otherwise the
    instantiation fails with TypeError.  A stage written as a direct
    subclass must therefore implement all six members of the stateless
    interface, or all nine of the adaptive one. *)
Theorem X6_subclass_instantiable_iff_all_overridden :
  forall name base body,
    In base module_classes ->
    (instantiate_subclass name base body = Ok (VObject name [])
     <-> (forall n, In n (member_names base) ->
            exists d, namespace_lookup body n = Some d
                      /\ is_abstract d = false)
         /\ (forall d, In d body ->
               exists d', namespace_lookup body (def_name d) = Some d'
                          /\ is_abstract d' = false))
    /\ (instantiate_subclass name base body = Ok (VObject name [])
        \/ instantiate_subclass name base body = Raise TypeError).
Proof.
  intros name base body Hb.
  split; [|unfold instantiate_subclass;
           destruct (subclass_abstractmethods base body); tauto].
  unfold instantiate_subclass, subclass_abstractmethods.
  rewrite (abstractmethods_are_members base Hb).
  split.
  - intro H.
    destruct (filter _ (map def_name body) ++ filter _ (member_names base))%list
      eqn:E; [|discriminate H].
    apply app_eq_nil in E. destruct E as [E1 E2].
    rewrite filter_nil_iff in E1, E2.
    split.
    + intros n Hn. specialize (E2 n Hn).
      unfold resolves_abstract, resolve in E2.
      destruct (namespace_lookup body n) as [d|]; [now exists d|].
      destruct (interface_members_abstract base n Hb Hn)
        as (_ & d & Hd & Ha).
      rewrite Hd in E2. congruence.
    + intros d Hd.
      destruct (namespace_lookup_defined body d Hd) as [d' Hd'].
      exists d'. split; [exact Hd'|].
      specialize (E1 (def_name d) (in_map _ _ _ Hd)).
      unfold resolves_abstract, resolve in E1. now rewrite Hd' in E1.
  - intros [H1 H2].
    assert (E1 : filter (resolves_abstract base body) (map def_name body)
                 = []).
    { apply filter_nil_iff. intros n Hn.
      apply in_map_iff in Hn. destruct Hn as (d & <- & Hd).
      destruct (H2 d Hd) as (d' & Hd' & Ha).
      unfold resolves_abstract, resolve. now rewrite Hd'. }
    assert (E2 : filter (resolves_abstract base body) (member_names base)
                 = []).
    { apply filter_nil_iff. intros n Hn.
      destruct (H1 n Hn) as (d & Hd & Ha).
      unfold resolves_abstract, resolve. now rewrite Hd. }
    now rewrite E1, E2.
Qed.

Lemma X6_subclass_instantiable_iff_all_overridden_witness :
  In S.decl module_classes
  /\ instantiate_subclass "IdentityStage" S.decl concrete_stage_body
     = Ok (VObject "IdentityStage" [])
  /\ instantiate_subclass "PartialStage" A.decl concrete_stage_body
     <> Ok (VObject "PartialStage" []).
Proof.
  assert (Hs : In S.decl module_classes) by (simpl; tauto).
  assert (Ha : In A.decl module_classes) by (simpl; tauto).
  split; [exact Hs|]. split.
  - apply (proj2 (proj1 (X6_subclass_instantiable_iff_all_overridden
                           "IdentityStage" S.decl concrete_stage_body Hs))).
    split.
    + intros n Hn. simpl in Hn.
      repeat (destruct Hn as [<-|Hn]; [eexists; split; reflexivity|]).
      destruct Hn.
    + intros d Hd. simpl in Hd.
      repeat (destruct Hd as [<-|Hd]; [eexists; split; reflexivity|]).
      destruct Hd.
  - intro H.
    apply (proj1 (proj1 (X6_subclass_instantiable_iff_all_overridden
                           "PartialStage" A.decl concrete_stage_body Ha)))
      in H.
    destruct H as [H _].
    destruct (H "initial_state") as (d & Hd & _); [simpl; tauto|].
    discriminate Hd.
Defined.

End SubclassFacts.

(** ** The client of the optimizer tests *)

Section DummyClientDeltaFnFacts.

Variable scalar : Type.
Variable mul : scalar -> scalar -> scalar.
Variables minus_one three : scalar.

Lemma map_structure_leafwise : forall (f : array scalar -> array scalar)
                                      (R : array scalar -> array scalar -> Prop),
    (forall t, R t (f t)) ->
    forall s, leafwise R s (map_structure f s).
Proof.
  intros f R HR s. induction s as [t|xs IH|kvs IH] using nest_induction;
    simpl.
  - constructor. apply HR.
  - constructor. induction IH as [|x xs Hx _ IHxs]; simpl; constructor;
      assumption.
  - constructor. induction IH as [|[k v] kvs Hv _ IHkvs]; simpl; constructor;
      [split; [reflexivity|exact Hv]|assumption].
Qed.

Lemma map_structure_involutive : forall (f : array scalar -> array scalar),
    (forall t, f (f t) = t) ->
    forall s, map_structure f (map_structure f s) = s.
Proof.
  intros f Hf s. induction s as [t|xs IH|kvs IH] using nest_induction;
    simpl.
  - now rewrite Hf.
  - f_equal. induction IH as [|x xs Hx _ IHxs]; simpl; [reflexivity|].
    now rewrite Hx, IHxs.
  - f_equal. induction IH as [|[k v] kvs Hv _ IHkvs]; simpl; [reflexivity|].
    simpl in Hv. now rewrite Hv, IHkvs.
Qed.

(** X8: whatever the dataset, the weights delta returned by
    DummyClientDeltaFn has the nesting and the keys of the initial weights,
    every tensor of it has the shape of the tensor at the same place and
    holds its elements multiplied by -1.0; the weight of the delta is the
    constant 3.0, the one reported under client_weight in optimizer_output,
    and model_output is empty. *)
Theorem X8_client_delta_negates_weights :
  forall (D : Type) (dataset : D) (initial_weights : nest scalar),
    let out :=
      DummyClientDeltaFn_call mul minus_one three dataset initial_weights in
    leafwise (negated mul minus_one) initial_weights (weights_delta out)
    /\ weights_delta_weight out = constant three
    /\ optimizer_output out
       = NDict [("client_weight", NTensor (weights_delta_weight out))]
    /\ model_output out = NDict [].
Proof.
  intros D dataset w out.
  split; [|repeat split].
  unfold out, DummyClientDeltaFn_call. simpl.
  apply map_structure_leafwise. intro t. split; reflexivity.
Qed.

(** X9: when multiplying twice by -1.0 gives back every scalar, the client
    applied to its own weights delta returns the initial weights. *)
Theorem X9_client_delta_twice_restores_weights :
  (forall x, mul minus_one (mul minus_one x) = x) ->
  forall (D D' : Type) (dataset : D) (dataset' : D')
         (initial_weights : nest scalar),
    weights_delta
      (DummyClientDeltaFn_call mul minus_one three dataset'
         (weights_delta
            (DummyClientDeltaFn_call mul minus_one three dataset
               initial_weights)))
    = initial_weights.
Proof.
  intros Hmul D D' dataset dataset' w.
  unfold DummyClientDeltaFn_call. simpl.
  apply map_structure_involutive.
  intros [sh xs]. unfold scale. simpl. f_equal.
  induction xs as [|x xs IH]; simpl; [reflexivity|].
  now rewrite Hmul, IH.
Qed.

End DummyClientDeltaFnFacts.

Lemma X9_client_delta_twice_restores_weights_witness :
  (forall x : Z, (-1 * (-1 * x) = x)%Z)
  /\ weights_delta
       (DummyClientDeltaFn_call Z.mul (-1)%Z 3%Z tt
          (weights_delta
             (DummyClientDeltaFn_call Z.mul (-1)%Z 3%Z tt
                trainable_weights)))
     = trainable_weights.
Proof.
  assert (H : forall x : Z, (-1 * (-1 * x) = x)%Z) by (intro x; lia).
  split; [exact H|].
  exact (X9_client_delta_twice_restores_weights Z Z.mul (-1)%Z 3%Z H
           unit unit tt tt trainable_weights).
Defined.
